(** * uptime-bot: a shallow embedding of [uptime-bot.py]

    The script fetches the most recent statuses of the account [altbot],
    loads the localization table, collects every localized
    [altTextError] message, counts the occurrences of those messages in
    the fetched statuses, and posts one of two fixed messages.

    The embedding follows the script line by line.  Values produced by
    [json.load] are Python values ([pyval]); every Python operation that
    can raise is a function into [result]; the network calls the script
    issues are recorded in a trace. *)

From Stdlib Require Import List String Ascii ZArith Bool Lia Permutation.
Import ListNotations.

Local Open Scope string_scope.
Local Open Scope Z_scope.

(** ** Exceptions and the error monad *)

Inductive exn : Type :=
| AttributeError
| TypeError
| KeyError
| IndexError.

Inductive result (A : Type) : Type :=
| Ok (a : A)
| Raise (e : exn).

Arguments Ok {A} a.
Arguments Raise {A} e.

Definition bind {A B : Type} (m : result A) (k : A -> result B) : result B :=
  match m with
  | Ok a => k a
  | Raise e => Raise e
  end.

Notation "x <- m ;; k" := (bind m (fun x => k))
  (at level 61, m at next level, right associativity).

(** ** Python values, as [json.load] builds them

    A JSON object becomes a [dict] whose keys are strings; the list of
    items is kept in insertion order, which is the order [items()]
    iterates in. *)

#[local] Set Warnings "-register-all".

Inductive pyval : Type :=
| PNone
| PBool (b : bool)
| PInt (z : Z)
| PFloat (mantissa exponent : Z)
| PStr (s : string)
| PList (l : list pyval)
| PDict (items : list (string * pyval)).

Module Py.

(** [needle in hay] on two [str]: literal substring containment. *)
Fixpoint str_contains (needle hay : string) : bool :=
  String.prefix needle hay ||
  match hay with
  | EmptyString => false
  | String _ hay' => str_contains needle hay'
  end.

(** [d[key]] on the items of a dict. *)
Fixpoint lookup (key : string) (items : list (string * pyval)) : option pyval :=
  match items with
  | [] => None
  | (k, v) :: rest => if String.eqb k key then Some v else lookup key rest
  end.

(** [x == key] for a [str] key. *)
Definition eq_str (key : string) (x : pyval) : bool :=
  match x with
  | PStr s => String.eqb s key
  | _ => false
  end.

(** [val.items()] *)
Definition items (val : pyval) : result (list (string * pyval)) :=
  match val with
  | PDict its => Ok its
  | _ => Raise AttributeError
  end.

(** [key in val] for a [str] key: key membership on a dict, substring
    test on a str, element membership on a list; the other JSON values
    are not iterable. *)
Definition contains (key : string) (val : pyval) : result bool :=
  match val with
  | PDict its => Ok (existsb (fun kv => String.eqb (fst kv) key) its)
  | PStr s => Ok (str_contains key s)
  | PList l => Ok (existsb (eq_str key) l)
  | _ => Raise TypeError
  end.

(** [val[key]] for a [str] key. *)
Definition getitem (val : pyval) (key : string) : result pyval :=
  match val with
  | PDict its =>
      match lookup key its with
      | Some v => Ok v
      | None => Raise KeyError
      end
  | _ => Raise TypeError
  end.

(** [error in content] where [content] is a [str]: the left operand
    must be a [str] too. *)
Definition in_str (error : pyval) (content : string) : result bool :=
  match error with
  | PStr s => Ok (str_contains s content)
  | _ => Raise TypeError
  end.

(** [range(n)] *)
Definition range (n : Z) : list nat := seq 0 (Z.to_nat n).

(** [[val[key] for val in vals if key in val]] *)
Fixpoint select (key : string) (vals : list pyval) : result (list pyval) :=
  match vals with
  | [] => Ok []
  | val :: rest =>
      b <- contains key val ;;
      if b then
        x <- getitem val key ;;
        xs <- select key rest ;;
        Ok (x :: xs)
      else select key rest
  end.

End Py.

(** ** Configuration (lines 5-17) *)

Record config : Type := {
  mods : string;
  test : bool;
  number_of_statuses : Z;
  threshold_of_errors : Z
}.

Definition default_config : config :=
  {| mods := EmptyString; test := true; number_of_statuses := 20; threshold_of_errors := 5 |}.

(** A status as returned by [account_statuses]; the script reads its
    ['content'] only. *)
Record status : Type := { content : string }.

(** ** Localization table (lines 27-31) *)

Definition temp1 : string := "responses".
Definition temp2 : string := "altTextError".

Definition responses_of (localizations : pyval) : result (list pyval) :=
  its <- Py.items localizations ;;
  Py.select temp1 (map snd its).

Definition error_responses (localizations : pyval) : result (list pyval) :=
  responses <- responses_of localizations ;;
  Py.select temp2 responses.

(** ** Matcher (lines 34-39) *)

(** The inner [for error in error_responses] loop, threading
    [error_count]. *)
Fixpoint count_errors (content : string) (errors : list pyval) (error_count : Z)
  : result Z :=
  match errors with
  | [] => Ok error_count
  | error :: rest =>
      b <- Py.in_str error content ;;
      count_errors content rest (if b then error_count + 1 else error_count)
  end.

(** The outer [for i in range(number_of_statuses)] loop. *)
Fixpoint scan_statuses (altbot_statuses : list status) (errors : list pyval)
    (indices : list nat) (error_count : Z) : result Z :=
  match indices with
  | [] => Ok error_count
  | i :: rest =>
      match nth_error altbot_statuses i with
      | None => Raise IndexError
      | Some st =>
          c <- count_errors (content st) errors error_count ;;
          scan_statuses altbot_statuses errors rest c
      end
  end.

Definition matcher (n : Z) (altbot_statuses : list status) (errors : list pyval)
  : result Z :=
  scan_statuses altbot_statuses errors (Py.range n) 0.

(** ** Decision and report (lines 41-50) *)

Definition newline : string := String (ascii_of_nat 10) EmptyString.

Definition alert_sentence : string :=
  "@altbot is throwing errors." ++ newline ++ " Pinging ".

Definition all_clear : string := "All is fine".

Definition compose_status (error_count threshold : Z) (mods : string) : string :=
  if error_count >=? threshold then alert_sentence ++ mods else all_clear.

Inductive api_call : Type :=
| AccountLookup (acct : string)
| AccountStatuses (id : Z) (limit : Z)
| StatusPost (text : string) (spoiler_text : option string).

Definition status_post (test : bool) (text : string) : api_call :=
  if test then StatusPost text (Some "testing") else StatusPost text None.

(** ** The whole run

    [altbot_id] and [altbot_statuses] are the answers of the two read
    calls, [localizations] is what [json.load] returned.  The run yields
    the calls issued, in order, and how it ended. *)

Definition analyse (cfg : config) (altbot_statuses : list status)
    (localizations : pyval) : result string :=
  errors <- error_responses localizations ;;
  error_count <- matcher (number_of_statuses cfg) altbot_statuses errors ;;
  Ok (compose_status error_count (threshold_of_errors cfg) (mods cfg)).

Definition run (cfg : config) (altbot_id : Z) (altbot_statuses : list status)
    (localizations : pyval) : list api_call * result unit :=
  let reads := [AccountLookup "altbot";
                AccountStatuses altbot_id (number_of_statuses cfg)] in
  match analyse cfg altbot_statuses localizations with
  | Ok text => ((reads ++ [status_post (test cfg) text])%list, Ok tt)
  | Raise e => (reads, Raise e)
  end.

Definition is_post (c : api_call) : bool :=
  match c with
  | StatusPost _ _ => true
  | _ => false
  end.

Definition posts (trace : list api_call) : list api_call := filter is_post trace.

(** ** Reading the table the way the specification describes it *)

(** The field [key] of a record, when the value is a record that has it. *)
Definition field (key : string) (val : pyval) : option pyval :=
  match val with
  | PDict its => Py.lookup key its
  | _ => None
  end.

Definition pick (key : string) (val : pyval) : list pyval :=
  match field key val with
  | Some x => [x]
  | None => []
  end.

(** The [altTextError] values of the records that have a [responses]
    field which itself has an [altTextError] field, in table order. *)
Definition alt_text_errors (its : list (string * pyval)) : list pyval :=
  flat_map
    (fun kv =>
       match field "responses" (snd kv) with
       | Some resp =>
           match field "altTextError" resp with
           | Some e => [e]
           | None => []
           end
       | None => []
       end) its.

Definition is_dict (val : pyval) : bool :=
  match val with
  | PDict _ => true
  | _ => false
  end.

(** The shape of a localization table: locale code -> record, where a
    [responses] field, when present, is a record again. *)
Definition record_shape (rec : pyval) : bool :=
  match rec with
  | PDict its =>
      match Py.lookup temp1 its with
      | Some resp => is_dict resp
      | None => true
      end
  | _ => false
  end.

Definition table_shape (localizations : pyval) : bool :=
  match localizations with
  | PDict its => forallb (fun kv => record_shape (snd kv)) its
  | _ => false
  end.

(** ** Counting, the way the specification describes it *)

Definition is_str (val : pyval) : bool :=
  match val with
  | PStr _ => true
  | _ => false
  end.

Definition strs (errors : list pyval) : list string :=
  flat_map (fun e => match e with PStr s => [s] | _ => [] end) errors.

(** Number of phrases that occur in one content. *)
Definition hits (content : string) (phrases : list string) : nat :=
  List.length (filter (fun p => Py.str_contains p content) phrases).

(** Number of (status, phrase) pairs with the phrase in the content. *)
Definition pair_hits (sts : list status) (phrases : list string) : nat :=
  list_sum (map (fun st => hits (content st) phrases) sts).

(** Does the content contain at least one of the phrases? *)
Definition has_error (phrases : list string) (st : status) : bool :=
  existsb (fun p => Py.str_contains p (content st)) phrases.

(** Number of statuses whose content contains at least one phrase. *)
Definition erroring_statuses (sts : list status) (phrases : list string) : nat :=
  List.length (filter (has_error phrases) sts).

(** The statuses one after the other, without indexing. *)
Fixpoint scan_all (sts : list status) (errors : list pyval) (error_count : Z)
  : result Z :=
  match sts with
  | [] => Ok error_count
  | st :: rest =>
      c <- count_errors (content st) errors error_count ;;
      scan_all rest errors c
  end.

(** [P] is a sub-collection of [Q]: [Q] holds every element of [P], as
    many times at least. *)
Definition sub_collection {A : Type} (P Q : list A) : Prop :=
  exists R, Permutation (P ++ R)%list Q.

Definition starts_with (s p : string) : Prop := exists r, s = p ++ r.
Definition ends_with (s p : string) : Prop := exists r, s = r ++ p.

(** Folding ASCII letters to lower case, to speak about phrases that
    differ in letter case only. *)
Definition lower_ascii (a : ascii) : ascii :=
  let n := nat_of_ascii a in
  if ((65 <=? n)%nat && (n <=? 90)%nat)%bool then ascii_of_nat (n + 32) else a.

Fixpoint lower (s : string) : string :=
  match s with
  | EmptyString => EmptyString
  | String a s' => String (lower_ascii a) (lower s')
  end.

(** ** When the extraction goes through

    A value met by [[val[key] for val in vals if key in val]] is usable
    when the guard can be evaluated and the subscript, if reached, is on
    a dict: a dict always is; a str or a list is as long as the guard is
    false; [None], booleans and numbers never are. *)
Definition usable (key : string) (val : pyval) : bool :=
  match val with
  | PDict _ => true
  | PStr s => negb (Py.str_contains key s)
  | PList l => negb (existsb (Py.eq_str key) l)
  | _ => false
  end.

Definition extractable (its : list (string * pyval)) : bool :=
  forallb (usable temp1) (map snd its) &&
  forallb (usable temp2) (flat_map (pick temp1) (map snd its)).

(** ** Sample data *)

Definition erroring : status := {| content := "<p>No alt text!</p>" |}.
Definition quiet : status := {| content := "<p>Described, thanks.</p>" |}.

(** [{"en": {"responses": {"altTextError": "No alt text!"}}}] *)
Definition localizations_en : pyval :=
  PDict [("en", PDict [("responses", PDict [("altTextError", PStr "No alt text!")])])].

(** Two locales whose messages overlap. *)
Definition localizations_overlap : pyval :=
  PDict [("en", PDict [("responses", PDict [("altTextError", PStr "No alt text")])]);
         ("en-GB", PDict [("responses", PDict [("altTextError", PStr "No alt text!")])])].

(** A table in which no locale defines [altTextError]. *)
Definition localizations_silent : pyval :=
  PDict [("en", PDict [("responses", PDict [("help", PStr "Ask me.")])]);
         ("de", PDict [("name", PStr "Deutsch")])].

(** [{"en": null}] *)
Definition localizations_null : pyval := PDict [("en", PNone)].

(** * Properties *)

(** ** Strings *)

Section Strings.

Lemma prefix_app (p r : string) : String.prefix p (p ++ r) = true.
Proof.
  induction p as [|a p IH]; simpl.
  - now destruct r.
  - destruct (ascii_dec a a) as [_|N]; [exact IH | now elim N].
Qed.

Lemma prefix_split (p s : string) :
  String.prefix p s = true -> exists r, s = p ++ r.
Proof.
  revert s; induction p as [|a p IH]; intros s H.
  - now exists s.
  - destruct s as [|b s]; simpl in H; [discriminate|].
    destruct (ascii_dec a b) as [->|_]; [|discriminate].
    destruct (IH _ H) as [r ->]. now exists r.
Qed.

Lemma str_contains_prefix (p s : string) :
  String.prefix p s = true -> Py.str_contains p s = true.
Proof. intros H. destruct s; cbn [Py.str_contains]; rewrite H; reflexivity. Qed.

Lemma str_contains_app (pre p post : string) :
  Py.str_contains p (pre ++ p ++ post) = true.
Proof.
  induction pre as [|a pre IH].
  - change (EmptyString ++ p ++ post) with (p ++ post).
    apply str_contains_prefix, prefix_app.
  - simpl. rewrite IH. apply orb_true_r.
Qed.

Lemma str_contains_split (p s : string) :
  Py.str_contains p s = true -> exists pre post, s = pre ++ p ++ post.
Proof.
  induction s as [|a s IH]; cbn [Py.str_contains]; intros H.
  - rewrite orb_false_r in H. destruct (prefix_split _ _ H) as [r E].
    now exists EmptyString, r.
  - apply orb_true_iff in H. destruct H as [H|H].
    + destruct (prefix_split _ _ H) as [r E]. now exists EmptyString, r.
    + destruct (IH H) as (pre & post & ->). now exists (String a pre), post.
Qed.

Lemma str_contains_spec (p s : string) :
  Py.str_contains p s = true <-> exists pre post, s = pre ++ p ++ post.
Proof.
  split; [apply str_contains_split|].
  intros (pre & post & ->). apply str_contains_app.
Qed.

Lemma app_length_str (s t : string) :
  String.length (s ++ t) = (String.length s + String.length t)%nat.
Proof. induction s; simpl; congruence. Qed.

Lemma str_contains_same_length (p s : string) :
  String.length p = String.length s ->
  Py.str_contains p s = true -> s = p.
Proof.
  intros L H. destruct (str_contains_split _ _ H) as (pre & post & ->).
  rewrite !app_length_str in L.
  destruct pre; [|simpl in L; lia].
  destruct post; [|simpl in L; lia].
  simpl. clear. induction p; simpl; congruence.
Qed.

End Strings.

(** ** The localization table *)

Section Localization.

Lemma existsb_key_lookup (key : string) (its : list (string * pyval)) :
  existsb (fun kv => String.eqb (fst kv) key) its =
  match Py.lookup key its with Some _ => true | None => false end.
Proof.
  induction its as [|[k v] its IH]; simpl; [reflexivity|].
  destruct (String.eqb k key); simpl; [reflexivity | exact IH].
Qed.

(** On a record, the guarded subscript of the comprehension is [pick]. *)
Lemma select_cons_dict (key : string) (its : list (string * pyval))
    (rest : list pyval) :
  Py.select key (PDict its :: rest) =
  (xs <- Py.select key rest ;; Ok (pick key (PDict its) ++ xs)%list).
Proof.
  unfold pick, field. simpl. rewrite existsb_key_lookup.
  destruct (Py.lookup key its); simpl; [reflexivity|].
  destruct (Py.select key rest); reflexivity.
Qed.

Lemma select_dicts (key : string) (vals : list pyval) :
  forallb is_dict vals = true ->
  Py.select key vals = Ok (flat_map (pick key) vals).
Proof.
  induction vals as [|val vals IH]; intros H; [reflexivity|].
  simpl in H. apply andb_true_iff in H. destruct H as [Hd Hr].
  destruct val; try discriminate.
  rewrite select_cons_dict, (IH Hr). reflexivity.
Qed.

(** Whenever the comprehension returns, it returned the picked fields:
    a value that is no record either is skipped or raises. *)
Lemma select_sound (key : string) (vals out : list pyval) :
  Py.select key vals = Ok out -> out = flat_map (pick key) vals.
Proof.
  revert out; induction vals as [|val vals IH]; intros out H.
  - simpl in H. injection H as <-. reflexivity.
  - destruct val;
      try (simpl in H; discriminate);
      try (simpl in H;
           match type of H with
           | context [if ?b then _ else _] => destruct b
           end; simpl in H; [discriminate | exact (IH _ H)]).
    rewrite select_cons_dict in H.
    destruct (Py.select key vals) as [xs|e]; simpl in H; [|discriminate].
    injection H as <-. simpl. now rewrite (IH xs eq_refl).
Qed.

Lemma select_app (key : string) (l1 l2 : list pyval) :
  Py.select key (l1 ++ l2) =
  (xs <- Py.select key l1 ;; ys <- Py.select key l2 ;; Ok (xs ++ ys)%list).
Proof.
  induction l1 as [|val l1 IH]; simpl.
  - destruct (Py.select key l2); reflexivity.
  - destruct (Py.contains key val) as [[|]|e]; simpl; [| exact IH | reflexivity].
    destruct (Py.getitem val key) as [x|e]; simpl; [|reflexivity].
    rewrite IH. destruct (Py.select key l1) as [xs|e]; simpl; [|reflexivity].
    destruct (Py.select key l2); reflexivity.
Qed.

Lemma alt_text_errors_picks (its : list (string * pyval)) :
  flat_map (pick temp2) (flat_map (pick temp1) (map snd its)) =
  alt_text_errors its.
Proof.
  induction its as [|[k v] its IH]; simpl; [reflexivity|].
  rewrite flat_map_app, IH. f_equal.
  unfold pick at 2. change temp1 with "responses".
  destruct (field "responses" v) as [resp|]; simpl; [|reflexivity].
  unfold pick. change temp2 with "altTextError".
  destruct (field "altTextError" resp); reflexivity.
Qed.

Lemma picked_responses_are_dicts (its : list (string * pyval)) :
  forallb (fun kv => record_shape (snd kv)) its = true ->
  forallb is_dict (flat_map (pick temp1) (map snd its)) = true.
Proof.
  induction its as [|[k v] its IH]; intros H; [reflexivity|].
  simpl in H. apply andb_true_iff in H. destruct H as [Hv Hr].
  simpl. rewrite forallb_app, (IH Hr), andb_true_r.
  destruct v; try discriminate. unfold pick, field. simpl in Hv.
  destruct (Py.lookup temp1 items); simpl; [now rewrite Hv | reflexivity].
Qed.

Lemma records_are_dicts (its : list (string * pyval)) :
  forallb (fun kv => record_shape (snd kv)) its = true ->
  forallb is_dict (map snd its) = true.
Proof.
  induction its as [|[k v] its IH]; intros H; [reflexivity|].
  simpl in H. apply andb_true_iff in H. destruct H as [Hv Hr].
  simpl. rewrite (IH Hr), andb_true_r. now destruct v.
Qed.

(** On a table of the expected shape the extraction returns, and
    returns what the specification describes. *)
Lemma error_responses_shape (its : list (string * pyval)) :
  table_shape (PDict its) = true ->
  error_responses (PDict its) = Ok (alt_text_errors its).
Proof.
  intros H. simpl in H. unfold error_responses, responses_of. simpl.
  rewrite (select_dicts _ _ (records_are_dicts _ H)). simpl.
  rewrite (select_dicts _ _ (picked_responses_are_dicts _ H)).
  now rewrite alt_text_errors_picks.
Qed.

(** Whatever the table, a successful extraction returned what the
    specification describes. *)
Lemma error_responses_sound (localizations : pyval) (out : list pyval) :
  error_responses localizations = Ok out ->
  exists its, localizations = PDict its /\ out = alt_text_errors its.
Proof.
  unfold error_responses, responses_of. intros H.
  destruct localizations; try discriminate. exists items. split; [reflexivity|].
  simpl in H.
  destruct (Py.select temp1 (map snd items)) as [rs|e] eqn:E1; [|discriminate].
  simpl in H. apply select_sound in E1. apply select_sound in H.
  subst. apply alt_text_errors_picks.
Qed.

Lemma in_alt_text_errors (its : list (string * pyval)) (e : pyval) :
  In e (alt_text_errors its) <->
  exists locale rec resp,
    In (locale, rec) its /\
    field "responses" rec = Some resp /\
    field "altTextError" resp = Some e.
Proof.
  unfold alt_text_errors. rewrite in_flat_map. split.
  - intros [[k v] [Hin He]]. simpl in He.
    destruct (field "responses" v) as [resp|] eqn:E1; [|contradiction].
    destruct (field "altTextError" resp) as [x|] eqn:E2; [|contradiction].
    destruct He as [<-|[]]. now exists k, v, resp.
  - intros (k & v & resp & Hin & E1 & E2). exists (k, v). split; [exact Hin|].
    simpl. rewrite E1, E2. now left.
Qed.

End Localization.

(** ** The matcher *)

Section Matcher.

Lemma strs_map_PStr (ps : list string) : strs (map PStr ps) = ps.
Proof. induction ps; simpl; congruence. Qed.

Lemma all_str_map (errors : list pyval) :
  forallb is_str errors = true -> errors = map PStr (strs errors).
Proof.
  induction errors as [|e errors IH]; intros H; [reflexivity|].
  simpl in H. apply andb_true_iff in H. destruct H as [He Hr].
  destruct e; try discriminate. simpl. now rewrite <- (IH Hr).
Qed.

(** The inner loop adds one per phrase that occurs in the content. *)
Lemma count_errors_strs (c : string) (ps : list string) (k : Z) :
  count_errors c (map PStr ps) k = Ok (k + Z.of_nat (hits c ps)).
Proof.
  unfold hits. revert k; induction ps as [|p ps IH]; intros k; simpl.
  - f_equal. lia.
  - rewrite IH. destruct (Py.str_contains p c); simpl; f_equal; lia.
Qed.

(** A phrase that is no [str] makes the inner loop raise. *)
Lemma count_errors_not_str (c : string) (errors : list pyval) (k : Z) :
  forallb is_str errors = false ->
  count_errors c errors k = Raise TypeError.
Proof.
  revert k; induction errors as [|e errors IH]; intros k H; [discriminate|].
  simpl in H. destruct e; simpl in *; try reflexivity. now apply IH.
Qed.

Lemma scan_all_strs (sts : list status) (ps : list string) (k : Z) :
  scan_all sts (map PStr ps) k = Ok (k + Z.of_nat (pair_hits sts ps)).
Proof.
  unfold pair_hits. revert k; induction sts as [|st sts IH]; intros k; simpl.
  - f_equal. lia.
  - rewrite count_errors_strs. simpl. rewrite IH. f_equal. lia.
Qed.

Lemma scan_all_not_str (st : status) (sts : list status)
    (errors : list pyval) (k : Z) :
  forallb is_str errors = false ->
  scan_all (st :: sts) errors k = Raise TypeError.
Proof. intros H. simpl. now rewrite count_errors_not_str. Qed.

(** Indexing through a block of consecutive indices visits the block. *)
Lemma scan_statuses_block (pre mid post : list status)
    (errors : list pyval) (k : Z) :
  scan_statuses (pre ++ mid ++ post) errors
                (seq (List.length pre) (List.length mid)) k =
  scan_all mid errors k.
Proof.
  revert pre k; induction mid as [|st mid IH]; intros pre k; [reflexivity|].
  simpl. rewrite nth_error_app2, Nat.sub_diag by lia. simpl.
  destruct (count_errors (content st) errors k) as [c|e]; simpl; [|reflexivity].
  specialize (IH (pre ++ [st])%list c).
  rewrite <- app_assoc, length_app, Nat.add_1_r in IH. exact IH.
Qed.

Lemma scan_statuses_app (sts : list status) (errors : list pyval)
    (is1 is2 : list nat) (k : Z) :
  scan_statuses sts errors (is1 ++ is2) k =
  (c <- scan_statuses sts errors is1 k ;; scan_statuses sts errors is2 c).
Proof.
  revert k; induction is1 as [|i is1 IH]; intros k; simpl; [reflexivity|].
  destruct (nth_error sts i) as [st|]; [|reflexivity].
  destruct (count_errors (content st) errors k); simpl; [apply IH | reflexivity].
Qed.

(** With enough statuses the matcher scans the first [n] of them. *)
Lemma matcher_firstn (n : Z) (sts : list status) (errors : list pyval) :
  (Z.to_nat n <= List.length sts)%nat ->
  matcher n sts errors = scan_all (firstn (Z.to_nat n) sts) errors 0.
Proof.
  intros H. unfold matcher, Py.range.
  rewrite <- (firstn_skipn (Z.to_nat n) sts) at 1.
  rewrite <- (scan_statuses_block [] (firstn (Z.to_nat n) sts)
                (skipn (Z.to_nat n) sts) errors 0).
  simpl. now rewrite length_firstn, Nat.min_l.
Qed.

Lemma matcher_all (n : Z) (sts : list status) (errors : list pyval) :
  List.length sts = Z.to_nat n ->
  matcher n sts errors = scan_all sts errors 0.
Proof.
  intros H. rewrite matcher_firstn by lia. now rewrite <- H, firstn_all.
Qed.

(** With too few statuses the matcher raises: it indexes past the end. *)
Lemma matcher_short (n : Z) (sts : list status) (errors : list pyval) :
  (List.length sts < Z.to_nat n)%nat ->
  exists e, matcher n sts errors = Raise e.
Proof.
  intros H. unfold matcher, Py.range.
  replace (Z.to_nat n)
    with (List.length sts + S (Z.to_nat n - S (List.length sts)))%nat by lia.
  rewrite seq_app, scan_statuses_app. simpl.
  destruct (scan_statuses sts errors (seq 0 (List.length sts)) 0) as [c|e];
    simpl; [|now exists e].
  rewrite (proj2 (nth_error_None sts (List.length sts))) by lia.
  now exists IndexError.
Qed.

Lemma matcher_short_strs (n : Z) (sts : list status) (ps : list string) :
  (List.length sts < Z.to_nat n)%nat ->
  matcher n sts (map PStr ps) = Raise IndexError.
Proof.
  intros H. unfold matcher, Py.range.
  replace (Z.to_nat n)
    with (List.length sts + S (Z.to_nat n - S (List.length sts)))%nat by lia.
  rewrite seq_app, scan_statuses_app.
  pose proof (scan_statuses_block [] sts [] (map PStr ps) 0) as B.
  simpl in B. rewrite app_nil_r in B. rewrite B, scan_all_strs. simpl.
  now rewrite (proj2 (nth_error_None sts (List.length sts))) by lia.
Qed.

Lemma matcher_ok_length (n : Z) (sts : list status) (errors : list pyval)
    (c : Z) :
  matcher n sts errors = Ok c -> (Z.to_nat n <= List.length sts)%nat.
Proof.
  intros H. destruct (Nat.le_gt_cases (Z.to_nat n) (List.length sts)) as [L|L];
    [exact L|].
  destruct (matcher_short n sts errors L) as [e E]. congruence.
Qed.

(** What the matcher counts: the pairs (status, phrase) with the
    phrase in the content, over the first [n] statuses. *)
Lemma matcher_strs (n : Z) (sts : list status) (ps : list string) :
  (Z.to_nat n <= List.length sts)%nat ->
  matcher n sts (map PStr ps) =
  Ok (Z.of_nat (pair_hits (firstn (Z.to_nat n) sts) ps)).
Proof. intros H. now rewrite matcher_firstn, scan_all_strs. Qed.

Lemma hits_nil (c : string) : hits c [] = 0%nat.
Proof. reflexivity. Qed.

Lemma pair_hits_nil (sts : list status) : pair_hits sts [] = 0%nat.
Proof. unfold pair_hits. induction sts; simpl; auto. Qed.

Lemma hits_app (c : string) (ps qs : list string) :
  hits c (ps ++ qs) = (hits c ps + hits c qs)%nat.
Proof. unfold hits. now rewrite filter_app, length_app. Qed.

Lemma hits_perm (c : string) (ps qs : list string) :
  Permutation ps qs -> hits c ps = hits c qs.
Proof.
  unfold hits. induction 1; simpl; try congruence.
  - destruct (Py.str_contains x c); simpl; congruence.
  - destruct (Py.str_contains x c), (Py.str_contains y c); reflexivity.
Qed.

Lemma pair_hits_perm_statuses (sts1 sts2 : list status) (ps : list string) :
  Permutation sts1 sts2 -> pair_hits sts1 ps = pair_hits sts2 ps.
Proof.
  unfold pair_hits. induction 1; simpl; try congruence; lia.
Qed.

Lemma pair_hits_sub (sts : list status) (ps qs rs : list string) :
  Permutation (ps ++ rs) qs -> (pair_hits sts ps <= pair_hits sts qs)%nat.
Proof.
  intros H. unfold pair_hits. induction sts as [|st sts IH]; simpl; [lia|].
  rewrite <- (hits_perm (content st) _ _ H), hits_app. lia.
Qed.

Lemma strs_perm (es fs : list pyval) :
  Permutation es fs -> Permutation (strs es) (strs fs).
Proof.
  unfold strs. induction 1; simpl.
  - constructor.
  - now apply Permutation_app_head.
  - rewrite !app_assoc. apply Permutation_app_tail, Permutation_app_comm.
  - etransitivity; eassumption.
Qed.

Lemma strs_app (es fs : list pyval) : strs (es ++ fs) = (strs es ++ strs fs)%list.
Proof. apply flat_map_app. Qed.

Lemma all_str_perm (es fs : list pyval) :
  Permutation es fs -> forallb is_str es = forallb is_str fs.
Proof.
  induction 1; simpl; try congruence.
  destruct (is_str x), (is_str y); reflexivity.
Qed.

End Matcher.

(** ** Enlarging the phrase collection or the table *)

Section Monotone.

Lemma sub_collection_app {A : Type} (P R : list A) : sub_collection P (P ++ R).
Proof. now exists R. Qed.

Lemma matcher_sub_collection (n : Z) (sts : list status)
    (P Q : list pyval) (cQ : Z) :
  sub_collection P Q ->
  matcher n sts Q = Ok cQ ->
  exists cP, matcher n sts P = Ok cP /\ cP <= cQ.
Proof.
  intros [R HR] HQ. pose proof (matcher_ok_length _ _ _ _ HQ) as L.
  rewrite matcher_firstn in HQ |- * by exact L.
  destruct (firstn (Z.to_nat n) sts) as [|st fs].
  - simpl in *. injection HQ as <-. exists 0. split; [reflexivity | lia].
  - destruct (forallb is_str Q) eqn:SQ.
    + pose proof SQ as SPR. rewrite <- (all_str_perm _ _ HR), forallb_app in SPR.
      apply andb_true_iff in SPR. destruct SPR as [SP _].
      rewrite (all_str_map _ SQ) in HQ. rewrite (all_str_map _ SP).
      rewrite scan_all_strs in HQ |- *. injection HQ as <-.
      eexists; split; [reflexivity|].
      apply strs_perm in HR. rewrite strs_app in HR.
      pose proof (pair_hits_sub (st :: fs) _ _ _ HR). lia.
    + rewrite scan_all_not_str in HQ by exact SQ. discriminate.
Qed.

(** Appending locales to the table appends to the extracted phrases. *)
Lemma error_responses_app (tbl extra : list (string * pyval)) (Q : list pyval) :
  error_responses (PDict (tbl ++ extra)) = Ok Q ->
  exists P R, error_responses (PDict tbl) = Ok P /\ Q = (P ++ R)%list.
Proof.
  unfold error_responses, responses_of. simpl. rewrite map_app, select_app.
  destruct (Py.select temp1 (map snd tbl)) as [xs|e]; simpl; [|discriminate].
  destruct (Py.select temp1 (map snd extra)) as [ys|e]; simpl; [|discriminate].
  rewrite select_app.
  destruct (Py.select temp2 xs) as [P|e]; simpl; [|discriminate].
  destruct (Py.select temp2 ys) as [R|e]; simpl; [|discriminate].
  intros H. injection H as <-. now exists P, R.
Qed.

End Monotone.

(** ** The end-to-end examples of the specification *)

Example six_of_twenty_alert :
  run default_config 7 (repeat erroring 6 ++ repeat quiet 14) localizations_en =
  ([AccountLookup "altbot"; AccountStatuses 7 20;
    StatusPost (alert_sentence ++ mods default_config) (Some "testing")], Ok tt).
Proof. vm_compute. reflexivity. Qed.

Example three_of_twenty_all_clear :
  run default_config 7 (repeat erroring 3 ++ repeat quiet 17) localizations_en =
  ([AccountLookup "altbot"; AccountStatuses 7 20;
    StatusPost "All is fine" (Some "testing")], Ok tt).
Proof. vm_compute. reflexivity. Qed.

Lemma lower_length (s : string) : String.length (lower s) = String.length s.
Proof. induction s; simpl; congruence. Qed.

(** * The claims *)

(** ** Matching *)

(** C1. The count is NOT the number of statuses that contain a phrase:
    the inner loop has no [break], so a status is counted once per
    phrase it contains.  With the default configuration, two locales
    whose messages are "No alt text" and "No alt text!" and twenty
    fetched statuses of which exactly one reports an error, the matcher
    returns 2 while one status contains a phrase. *)
Theorem overlapping_phrases_counted_twice :
  error_responses localizations_overlap =
    Ok (map PStr ["No alt text"; "No alt text!"]) /\
  matcher (number_of_statuses default_config) (erroring :: repeat quiet 19)
          (map PStr ["No alt text"; "No alt text!"]) = Ok 2 /\
  erroring_statuses (erroring :: repeat quiet 19)
                    ["No alt text"; "No alt text!"] = 1%nat.
Proof. repeat split; vm_compute; reflexivity. Qed.

(** C2. Fetching fewer statuses than [number_of_statuses] makes the
    matcher raise [IndexError]: with the default configuration (20) and
    19 fetched statuses, [altbot_statuses[19]] is out of range. *)
Theorem short_fetch_raises_index_error :
  matcher (number_of_statuses default_config) (repeat quiet 19)
          [PStr "No alt text!"] = Raise IndexError.
Proof. vm_compute. reflexivity. Qed.

(** C6. The test made for one status and one phrase is literal substring
    containment on the raw content: the count goes up by one exactly
    when the content is [pre ++ phrase ++ post] for some [pre] and
    [post], whatever markup they hold, and a phrase that differs from
    the content in letter case only is not found. *)
Theorem per_status_test_is_literal :
  forall content phrase : string,
    count_errors content [PStr phrase] 0 =
      Ok (if Py.str_contains phrase content then 1 else 0) /\
    (Py.str_contains phrase content = true <->
       exists pre post, content = pre ++ phrase ++ post) /\
    (forall pre post,
        count_errors (pre ++ phrase ++ post) [PStr phrase] 0 = Ok 1) /\
    (lower phrase = lower content -> phrase <> content ->
       count_errors content [PStr phrase] 0 = Ok 0).
Proof.
  intros c p. split; [|split; [|split]].
  - simpl. now destruct (Py.str_contains p c).
  - apply str_contains_spec.
  - intros pre post. simpl. now rewrite str_contains_app.
  - intros HL HN. simpl.
    destruct (Py.str_contains p c) eqn:E; [|reflexivity].
    exfalso. apply HN. symmetry. apply str_contains_same_length; [|exact E].
    rewrite <- (lower_length p), <- (lower_length c). now rewrite HL.
Qed.

Lemma per_status_test_is_literal_witness :
  lower "no alt text!" = lower "No alt text!" /\
  "no alt text!" <> "No alt text!" /\
  count_errors "No alt text!" [PStr "no alt text!"] 0 = Ok 0 /\
  count_errors ("<a title='" ++ "No alt text!" ++ "'>x</a>")
               [PStr "No alt text!"] 0 = Ok 1.
Proof.
  pose proof (per_status_test_is_literal "No alt text!" "no alt text!")
    as (_ & _ & _ & H).
  pose proof (per_status_test_is_literal EmptyString "No alt text!")
    as (_ & _ & M & _).
  split; [reflexivity|]. split; [discriminate|].
  split; [apply H; [reflexivity | discriminate] | apply M].
Defined.

(** C9. When the fetched statuses are exactly as many as the matcher
    iterates over, permuting them does not change what the matcher
    returns; and with phrases that are strings it does return a count. *)
Theorem matcher_permutation_invariant :
  forall (n : Z) (sts1 sts2 : list status) (errors : list pyval),
    Permutation sts1 sts2 ->
    List.length sts1 = Z.to_nat n ->
    matcher n sts1 errors = matcher n sts2 errors /\
    (forallb is_str errors = true ->
       exists c, matcher n sts1 errors = Ok c /\ matcher n sts2 errors = Ok c).
Proof.
  intros n sts1 sts2 errors HP HL.
  assert (HL2 : List.length sts2 = Z.to_nat n)
    by (now rewrite <- (Permutation_length HP)).
  rewrite (matcher_all _ _ _ HL), (matcher_all _ _ _ HL2).
  destruct (forallb is_str errors) eqn:S.
  - rewrite (all_str_map _ S), !scan_all_strs.
    rewrite (pair_hits_perm_statuses _ _ (strs errors) HP).
    split; [reflexivity|]. intros _. now eexists.
  - split; [|discriminate].
    destruct sts1 as [|st1 sts1].
    + apply Permutation_nil in HP. now subst.
    + destruct sts2 as [|st2 sts2].
      * apply Permutation_sym, Permutation_nil in HP. discriminate.
      * now rewrite !scan_all_not_str.
Qed.

Lemma matcher_permutation_invariant_witness :
  Permutation [erroring; quiet] [quiet; erroring] /\
  List.length [erroring; quiet] = Z.to_nat 2 /\
  matcher 2 [erroring; quiet] [PStr "No alt text!"] =
  matcher 2 [quiet; erroring] [PStr "No alt text!"].
Proof.
  split; [apply perm_swap|]. split; [reflexivity|].
  apply (matcher_permutation_invariant 2 [erroring; quiet] [quiet; erroring]
           [PStr "No alt text!"]); [apply perm_swap | reflexivity].
Defined.

(** C10. The count is monotone in the phrase collection: when [P] is a
    sub-collection of [Q] and the matcher returns a count with [Q], it
    returns one with [P] too, and that count is not larger.  Hence
    appending locales to the localization table never lowers the
    count. *)
Theorem error_count_monotone :
  (forall (n : Z) (sts : list status) (P Q : list pyval) (cQ : Z),
      sub_collection P Q ->
      matcher n sts Q = Ok cQ ->
      exists cP, matcher n sts P = Ok cP /\ cP <= cQ) /\
  (forall (n : Z) (sts : list status) (tbl extra : list (string * pyval))
          (Q : list pyval) (cQ : Z),
      error_responses (PDict (tbl ++ extra)) = Ok Q ->
      matcher n sts Q = Ok cQ ->
      exists P cP,
        error_responses (PDict tbl) = Ok P /\
        matcher n sts P = Ok cP /\ cP <= cQ).
Proof.
  split.
  - exact matcher_sub_collection.
  - intros n sts tbl extra Q cQ HE HM.
    destruct (error_responses_app _ _ _ HE) as (P & R & HP & ->).
    destruct (matcher_sub_collection n sts P (P ++ R) cQ
                (sub_collection_app P R) HM) as (cP & HcP & Hle).
    now exists P, cP.
Qed.

Lemma error_count_monotone_witness :
  sub_collection [PStr "No alt text"] [PStr "No alt text!"; PStr "No alt text"] /\
  matcher 2 [erroring; quiet] [PStr "No alt text!"; PStr "No alt text"] = Ok 2 /\
  (exists cP, matcher 2 [erroring; quiet] [PStr "No alt text"] = Ok cP /\ cP <= 2) /\
  error_responses localizations_overlap =
    Ok [PStr "No alt text"; PStr "No alt text!"] /\
  (exists P cP,
      error_responses
        (PDict [("en", PDict [("responses",
                               PDict [("altTextError", PStr "No alt text")])])])
        = Ok P /\
      matcher 2 [erroring; quiet] P = Ok cP /\ cP <= 2).
Proof.
  assert (S : sub_collection [PStr "No alt text"]
                             [PStr "No alt text!"; PStr "No alt text"])
    by (exists [PStr "No alt text!"]; apply perm_swap).
  split; [exact S|]. split; [reflexivity|].
  split.
  - apply (proj1 error_count_monotone 2 [erroring; quiet] _ _ 2 S). reflexivity.
  - split; [reflexivity|].
    apply (proj2 error_count_monotone 2 [erroring; quiet]
             [("en", PDict [("responses",
                             PDict [("altTextError", PStr "No alt text")])])]
             [("en-GB", PDict [("responses",
                                PDict [("altTextError", PStr "No alt text!")])])]
             [PStr "No alt text"; PStr "No alt text!"] 2);
      reflexivity.
Defined.

(** ** The localization table *)

(** C4. On every localization table of the expected shape the
    extraction returns exactly the [altTextError] values of the locale
    records that have a [responses] field whose record has an
    [altTextError] field: those values, in table order, and nothing
    else. *)
Theorem error_responses_exact :
  forall localizations : pyval,
    table_shape localizations = true ->
    exists its,
      localizations = PDict its /\
      error_responses localizations = Ok (alt_text_errors its) /\
      (forall e,
          In e (alt_text_errors its) <->
          exists locale rec resp,
            In (locale, rec) its /\
            field "responses" rec = Some resp /\
            field "altTextError" resp = Some e).
Proof.
  intros localizations H. destruct localizations; try discriminate.
  exists items. split; [reflexivity|]. split.
  - now apply error_responses_shape.
  - apply in_alt_text_errors.
Qed.

Lemma error_responses_exact_witness :
  table_shape localizations_overlap = true /\
  exists its,
    localizations_overlap = PDict its /\
    error_responses localizations_overlap = Ok (alt_text_errors its) /\
    (forall e,
        In e (alt_text_errors its) <->
        exists locale rec resp,
          In (locale, rec) its /\
          field "responses" rec = Some resp /\
          field "altTextError" resp = Some e).
Proof.
  split; [reflexivity|].
  apply (error_responses_exact localizations_overlap). reflexivity.
Defined.

(** C7. A table in which no locale defines [altTextError] is extracted
    to the empty list, but the count is not 0 for every status
    sequence: with the default configuration and 19 fetched statuses the
    matcher raises [IndexError] (it indexes the statuses before it looks
    at any phrase), and the run ends without composing a message. *)
Theorem silent_table_short_fetch_raises :
  table_shape localizations_silent = true /\
  error_responses localizations_silent = Ok [] /\
  matcher (number_of_statuses default_config) (repeat quiet 19) [] =
    Raise IndexError /\
  run default_config 7 (repeat quiet 19) localizations_silent =
    ([AccountLookup "altbot"; AccountStatuses 7 20], Raise IndexError).
Proof. repeat split; vm_compute; reflexivity. Qed.

(** What does hold for such a table: with at least [number_of_statuses]
    fetched statuses and a positive threshold the all-clear message is
    composed. *)
Lemma silent_table_all_clear (cfg : config) (sts : list status)
    (its : list (string * pyval)) :
  table_shape (PDict its) = true ->
  alt_text_errors its = [] ->
  (Z.to_nat (number_of_statuses cfg) <= List.length sts)%nat ->
  0 < threshold_of_errors cfg ->
  error_responses (PDict its) = Ok [] /\
  matcher (number_of_statuses cfg) sts [] = Ok 0 /\
  analyse cfg sts (PDict its) = Ok all_clear.
Proof.
  intros HS HE HL HT.
  assert (E : error_responses (PDict its) = Ok [])
    by (now rewrite error_responses_shape, HE).
  assert (M : matcher (number_of_statuses cfg) sts [] = Ok 0).
  { pose proof (matcher_strs _ _ [] HL) as M0.
    change (map PStr []) with (@nil pyval) in M0.
    now rewrite pair_hits_nil in M0. }
  repeat split; try assumption.
  unfold analyse. rewrite E. simpl. rewrite M. simpl.
  unfold compose_status.
  destruct (Z.geb_spec 0 (threshold_of_errors cfg)); [lia | reflexivity].
Qed.

(** ** Decision and report *)

(** C3. When the count reaches the threshold the message is the alert
    sentence followed directly by the mentions: it starts with the alert
    sentence and ends with the mentions.  Otherwise the message is the
    all-clear sentence and nothing else. *)
Theorem compose_status_spec :
  forall (error_count threshold : Z) (mods : string),
    (error_count >= threshold ->
       compose_status error_count threshold mods = alert_sentence ++ mods /\
       starts_with (compose_status error_count threshold mods) alert_sentence /\
       ends_with (compose_status error_count threshold mods) mods) /\
    (error_count < threshold ->
       compose_status error_count threshold mods = "All is fine").
Proof.
  intros c t m. unfold compose_status.
  destruct (Z.geb_spec c t) as [G|L]; split; intros H; try lia.
  - split; [reflexivity|]. split; [now exists m | now exists alert_sentence].
  - reflexivity.
Qed.

Lemma compose_status_spec_witness :
  (6 >= 5 /\
   compose_status 6 5 "@mod" =
     "@altbot is throwing errors." ++ newline ++ " Pinging @mod") /\
  (3 < 5 /\ compose_status 3 5 "@mod" = "All is fine").
Proof.
  split; (split; [lia|]).
  - apply (proj1 (compose_status_spec 6 5 "@mod")). lia.
  - apply (proj2 (compose_status_spec 3 5 "@mod")). lia.
Defined.

(** C5. Whenever extraction and matching return, the run submits the
    composed message; the post carries the spoiler text "testing" when
    the test flag is set and no spoiler text when it is not, and its
    text is the same for both values of the flag. *)
Theorem test_mode_annotation :
  forall (flag : bool) (m : string) (n t id : Z) (sts : list status)
         (localizations : pyval) (errors : list pyval) (c : Z),
    error_responses localizations = Ok errors ->
    matcher n sts errors = Ok c ->
    posts (fst (run {| mods := m; test := flag;
                       number_of_statuses := n; threshold_of_errors := t |}
                    id sts localizations)) =
    [StatusPost (compose_status c t m)
                (if flag then Some "testing" else None)].
Proof.
  intros flag m n t id sts loc errors c HE HM.
  unfold run, analyse. simpl. rewrite HE. simpl. rewrite HM. simpl.
  now destruct flag.
Qed.

Lemma test_mode_annotation_witness :
  error_responses localizations_en = Ok [PStr "No alt text!"] /\
  matcher 2 [erroring; quiet] [PStr "No alt text!"] = Ok 1 /\
  posts (fst (run {| mods := "@mod"; test := true;
                     number_of_statuses := 2; threshold_of_errors := 1 |}
                  7 [erroring; quiet] localizations_en)) =
    [StatusPost (compose_status 1 1 "@mod") (Some "testing")] /\
  posts (fst (run {| mods := "@mod"; test := false;
                     number_of_statuses := 2; threshold_of_errors := 1 |}
                  7 [erroring; quiet] localizations_en)) =
    [StatusPost (compose_status 1 1 "@mod") None].
Proof.
  split; [reflexivity|]. split; [reflexivity|]. split.
  - apply (test_mode_annotation true "@mod" 2 1 7 [erroring; quiet]
             localizations_en [PStr "No alt text!"] 1); reflexivity.
  - apply (test_mode_annotation false "@mod" 2 1 7 [erroring; quiet]
             localizations_en [PStr "No alt text!"] 1); reflexivity.
Defined.

(** C8, as stated, fails: a run that raises before the report issues no
    [status_post] at all.  With [{"en": null}] as the table,
    ['responses' in None] raises [TypeError] and nothing is posted. *)
Lemma failed_run_posts_nothing :
  run default_config 7 (repeat quiet 20) localizations_null =
    ([AccountLookup "altbot"; AccountStatuses 7 20], Raise TypeError) /\
  List.length (posts (fst (run default_config 7 (repeat quiet 20)
                               localizations_null))) <> 1%nat.
Proof. split; [vm_compute; reflexivity | vm_compute; discriminate]. Qed.

(** C8, amended. A run whose extraction and matching return issues
    exactly one [status_post], carrying the composed message, whichever
    message that is and whatever the test flag; and no run issues more
    than one. *)
Theorem completed_run_posts_once :
  forall (cfg : config) (id : Z) (sts : list status) (localizations : pyval),
    (forall text,
        analyse cfg sts localizations = Ok text ->
        posts (fst (run cfg id sts localizations)) =
          [status_post (test cfg) text] /\
        List.length (posts (fst (run cfg id sts localizations))) = 1%nat) /\
    (List.length (posts (fst (run cfg id sts localizations))) <= 1)%nat.
Proof.
  intros cfg id sts loc. unfold run.
  destruct (analyse cfg sts loc) as [text|e]; simpl.
  - assert (P : posts [status_post (test cfg) text] =
                [status_post (test cfg) text])
      by (unfold status_post; now destruct (test cfg)).
    unfold posts in *. simpl in *. rewrite P. split; [|simpl; lia].
    intros text' H. injection H as <-. now split.
  - split; [discriminate | lia].
Qed.

Lemma completed_run_posts_once_witness :
  analyse default_config (repeat erroring 6 ++ repeat quiet 14) localizations_en =
    Ok (alert_sentence ++ mods default_config) /\
  posts (fst (run default_config 7 (repeat erroring 6 ++ repeat quiet 14)
                  localizations_en)) =
    [status_post true (alert_sentence ++ mods default_config)] /\
  List.length (posts (fst (run default_config 7
                               (repeat erroring 6 ++ repeat quiet 14)
                               localizations_en))) = 1%nat.
Proof.
  split; [reflexivity|].
  apply (proj1 (completed_run_posts_once default_config 7
                  (repeat erroring 6 ++ repeat quiet 14) localizations_en)).
  reflexivity.
Defined.

(** * Further properties of the script *)

(** ** Extraction, on any JSON value *)

Section Extraction.

Lemma select_usable (key : string) (vals : list pyval) :
  forallb (usable key) vals = true ->
  Py.select key vals = Ok (flat_map (pick key) vals).
Proof.
  induction vals as [|val vals IH]; intros H; [reflexivity|].
  simpl in H. apply andb_true_iff in H. destruct H as [Hv Hr].
  destruct val; try discriminate.
  - simpl in *. apply negb_true_iff in Hv. rewrite Hv. exact (IH Hr).
  - simpl in *. apply negb_true_iff in Hv. rewrite Hv. exact (IH Hr).
  - rewrite select_cons_dict, (IH Hr). reflexivity.
Qed.

Lemma select_raises_type_error (key : string) (vals : list pyval) (e : exn) :
  Py.select key vals = Raise e -> e = TypeError.
Proof.
  induction vals as [|val vals IH]; intros H; [discriminate|].
  destruct val;
    try (simpl in H; congruence);
    try (simpl in H;
         match type of H with
         | context [if ?b then _ else _] => destruct b
         end; simpl in H; [congruence | exact (IH H)]).
  rewrite select_cons_dict in H.
  destruct (Py.select key vals) as [xs|e']; simpl in H; [discriminate|].
  apply IH. congruence.
Qed.

Lemma select_not_usable (key : string) (vals : list pyval) :
  forallb (usable key) vals = false ->
  Py.select key vals = Raise TypeError.
Proof.
  intros H. destruct (Py.select key vals) as [out|e] eqn:E.
  - exfalso. revert out E H.
    induction vals as [|val vals IH]; intros out E H; [discriminate|].
    simpl in H. apply andb_false_iff in H.
    destruct val;
      try (simpl in E; discriminate);
      try (simpl in E, H;
           match type of E with
           | context [if ?b then _ else _] => destruct b
           end; simpl in E, H; [discriminate|];
           destruct H as [H|H]; [discriminate | exact (IH _ E H)]).
    rewrite select_cons_dict in E.
    destruct (Py.select key vals) as [xs|e']; simpl in E; [|discriminate].
    destruct H as [H|H]; [discriminate | exact (IH _ eq_refl H)].
  - now rewrite (select_raises_type_error _ _ _ E).
Qed.

End Extraction.

Lemma error_responses_eq (localizations : pyval) :
  error_responses localizations =
  match localizations with
  | PDict its =>
      if extractable its then Ok (alt_text_errors its) else Raise TypeError
  | _ => Raise AttributeError
  end.
Proof.
  destruct localizations as [| | | | | |items]; try reflexivity.
  unfold error_responses, responses_of, extractable. simpl.
  destruct (forallb (usable temp1) (map snd items)) eqn:U1.
  - rewrite (select_usable _ _ U1). simpl.
    destruct (forallb (usable temp2) (flat_map (pick temp1) (map snd items)))
      eqn:U2.
    + now rewrite (select_usable _ _ U2), alt_text_errors_picks.
    + now rewrite (select_not_usable _ _ U2).
  - now rewrite (select_not_usable _ _ U1).
Qed.

(** X1. The extraction in closed form, for every value [json.load] can
    return: it raises [AttributeError] when the document is not an
    object, [TypeError] when some locale value or some [responses] value
    is not usable, and otherwise returns the [altTextError] values found
    under [responses], in table order. *)
Theorem error_responses_closed_form :
  forall localizations : pyval,
    error_responses localizations =
    match localizations with
    | PDict its =>
        if extractable its then Ok (alt_text_errors its) else Raise TypeError
    | _ => Raise AttributeError
    end.
Proof. exact error_responses_eq. Qed.

(** X2. The guarded subscripts never miss: whatever the document, the
    extraction does not raise [KeyError] (nor [IndexError]). *)
Theorem error_responses_never_key_error :
  forall (localizations : pyval) (e : exn),
    error_responses localizations = Raise e ->
    e = AttributeError \/ e = TypeError.
Proof.
  intros loc e. rewrite error_responses_eq.
  destruct loc; try (intros H; injection H as <-; now left).
  destruct (extractable items); [discriminate|].
  intros H; injection H as <-; now right.
Qed.

Lemma error_responses_never_key_error_witness :
  error_responses localizations_null = Raise TypeError /\
  (TypeError = AttributeError \/ TypeError = TypeError).
Proof.
  split; [reflexivity|].
  apply (error_responses_never_key_error localizations_null). reflexivity.
Defined.

(** X3. Extraction of a table built from two runs of locales is the
    extraction of the first followed by the extraction of the second;
    it raises as soon as one of the two does. *)
Theorem error_responses_concat :
  forall tbl extra : list (string * pyval),
    error_responses (PDict (tbl ++ extra)) =
    (P <- error_responses (PDict tbl) ;;
     R <- error_responses (PDict extra) ;;
     Ok (P ++ R)%list).
Proof.
  intros tbl extra. rewrite !error_responses_eq.
  unfold extractable, alt_text_errors.
  rewrite !map_app, !flat_map_app, !forallb_app.
  destruct (forallb (usable temp1) (map snd tbl)),
           (forallb (usable temp2) (flat_map (pick temp1) (map snd tbl)));
    simpl; try reflexivity;
  destruct (forallb (usable temp1) (map snd extra)),
           (forallb (usable temp2) (flat_map (pick temp1) (map snd extra)));
    reflexivity.
Qed.

(** ** What the matcher counts *)

Section Counting.

Lemma hits_le_length (c : string) (ps : list string) :
  (hits c ps <= List.length ps)%nat.
Proof. unfold hits. apply filter_length_le. Qed.

Lemma has_error_hits (ps : list string) (st : status) :
  if has_error ps st then (1 <= hits (content st) ps)%nat
  else hits (content st) ps = 0%nat.
Proof.
  unfold has_error, hits. induction ps as [|p ps IH]; simpl; [reflexivity|].
  destruct (Py.str_contains p (content st)); simpl; [lia|exact IH].
Qed.

Lemma pair_hits_cons (st : status) (sts : list status) (ps : list string) :
  pair_hits (st :: sts) ps = (hits (content st) ps + pair_hits sts ps)%nat.
Proof. reflexivity. Qed.

Lemma erroring_statuses_cons (st : status) (sts : list status)
    (ps : list string) :
  erroring_statuses (st :: sts) ps =
  ((if has_error ps st then 1 else 0) + erroring_statuses sts ps)%nat.
Proof. unfold erroring_statuses. simpl. now destruct (has_error ps st). Qed.

Lemma pair_hits_bounds (sts : list status) (ps : list string) :
  (erroring_statuses sts ps <= pair_hits sts ps)%nat /\
  (pair_hits sts ps <= List.length ps * erroring_statuses sts ps)%nat.
Proof.
  induction sts as [|st sts [IH1 IH2]];
    [unfold pair_hits, erroring_statuses;
     cbn [map filter List.length]; change (list_sum []) with 0%nat; lia|].
  rewrite pair_hits_cons, erroring_statuses_cons.
  pose proof (has_error_hits ps st) as H.
  pose proof (hits_le_length (content st) ps) as L.
  destruct (has_error ps st); split; nia.
Qed.

Lemma pair_hits_at_most_one (sts : list status) (ps : list string) :
  (forall st, In st sts -> (hits (content st) ps <= 1)%nat) ->
  pair_hits sts ps = erroring_statuses sts ps.
Proof.
  induction sts as [|st sts IH]; intros H; [reflexivity|].
  rewrite pair_hits_cons, erroring_statuses_cons, IH
    by (intros; apply H; now right).
  pose proof (has_error_hits ps st) as E.
  pose proof (H st (or_introl eq_refl)) as L.
  destruct (has_error ps st); lia.
Qed.

Lemma pair_hits_le_product (sts : list status) (ps : list string) :
  (pair_hits sts ps <= List.length sts * List.length ps)%nat.
Proof.
  induction sts as [|st sts IH]; [unfold pair_hits; simpl; lia|].
  rewrite pair_hits_cons. pose proof (hits_le_length (content st) ps).
  simpl. lia.
Qed.

Lemma pair_hits_app_phrases (sts : list status) (ps qs : list string) :
  pair_hits sts (ps ++ qs) = (pair_hits sts ps + pair_hits sts qs)%nat.
Proof.
  induction sts as [|st sts IH]; [reflexivity|].
  rewrite !pair_hits_cons, IH, hits_app. lia.
Qed.

Lemma pair_hits_perm_phrases (sts : list status) (ps qs : list string) :
  Permutation ps qs -> pair_hits sts ps = pair_hits sts qs.
Proof.
  intros H. induction sts as [|st sts IH]; [reflexivity|].
  now rewrite !pair_hits_cons, IH, (hits_perm _ _ _ H).
Qed.

Lemma str_contains_empty (s : string) : Py.str_contains EmptyString s = true.
Proof. now destruct s. Qed.

Lemma pair_hits_empty_phrase (sts : list status) :
  pair_hits sts [EmptyString] = List.length sts.
Proof.
  induction sts as [|st sts IH]; [reflexivity|].
  rewrite pair_hits_cons, IH. unfold hits. simpl.
  now rewrite str_contains_empty.
Qed.

Lemma pair_hits_repeat (sts : list status) (p : string) (k : nat) :
  pair_hits sts (repeat p k) = (k * pair_hits sts [p])%nat.
Proof.
  induction k as [|k IH]; simpl.
  - apply pair_hits_nil.
  - change (p :: repeat p k) with ([p] ++ repeat p k)%list.
    rewrite pair_hits_app_phrases, IH. lia.
Qed.

(** The statuses one after the other: permuting the phrases changes
    nothing, whether the scan returns or raises. *)
Lemma scan_all_perm_phrases (sts : list status) (es fs : list pyval) (k : Z) :
  Permutation es fs -> scan_all sts es k = scan_all sts fs k.
Proof.
  intros H. pose proof (all_str_perm _ _ H) as S.
  destruct (forallb is_str es) eqn:Se; symmetry in S.
  - rewrite (all_str_map _ Se), (all_str_map _ S), !scan_all_strs.
    now rewrite (pair_hits_perm_phrases _ _ _ (strs_perm _ _ H)).
  - destruct sts as [|st sts]; [reflexivity|].
    now rewrite !scan_all_not_str.
Qed.

(** With too few statuses: the statuses there are scanned, then the
    index runs past the end. *)
Lemma matcher_short_eq (n : Z) (sts : list status) (errors : list pyval) :
  (List.length sts < Z.to_nat n)%nat ->
  matcher n sts errors = (c <- scan_all sts errors 0 ;; Raise IndexError).
Proof.
  intros H. unfold matcher, Py.range.
  replace (Z.to_nat n)
    with (List.length sts + S (Z.to_nat n - S (List.length sts)))%nat by lia.
  rewrite seq_app, scan_statuses_app.
  pose proof (scan_statuses_block [] sts [] errors 0) as B.
  simpl in B. rewrite app_nil_r in B. rewrite B.
  destruct (scan_all sts errors 0) as [c|e]; simpl; [|reflexivity].
  now rewrite (proj2 (nth_error_None sts (List.length sts))) by lia.
Qed.

End Counting.

(** X4. What the matcher returns: with at least [number_of_statuses]
    statuses fetched and phrases that are strings, the count is the
    number of pairs (status, phrase) with the phrase in the content,
    over the first [number_of_statuses] statuses; it is at least the
    number of those statuses that contain a phrase and at most that
    number times the number of phrases. *)
Theorem matcher_counts_pairs :
  forall (n : Z) (sts : list status) (ps : list string),
    (Z.to_nat n <= List.length sts)%nat ->
    let seen := firstn (Z.to_nat n) sts in
    matcher n sts (map PStr ps) = Ok (Z.of_nat (pair_hits seen ps)) /\
    (erroring_statuses seen ps <= pair_hits seen ps)%nat /\
    (pair_hits seen ps <= List.length ps * erroring_statuses seen ps)%nat.
Proof.
  intros n sts ps H seen. split; [now apply matcher_strs|].
  apply pair_hits_bounds.
Qed.

Lemma matcher_counts_pairs_witness :
  (Z.to_nat 2 <= List.length [erroring; quiet; erroring])%nat /\
  matcher 2 [erroring; quiet; erroring]
          (map PStr ["No alt text"; "No alt text!"]) =
    Ok (Z.of_nat (pair_hits [erroring; quiet] ["No alt text"; "No alt text!"])).
Proof.
  split; [simpl; lia|].
  apply (matcher_counts_pairs 2 [erroring; quiet; erroring]
           ["No alt text"; "No alt text!"]).
  simpl; lia.
Defined.

(** X5. When no scanned status contains more than one of the phrases
    (a single phrase, or phrases that never occur together), the count
    is the number of scanned statuses that contain a phrase. *)
Theorem matcher_counts_statuses_when_disjoint :
  forall (n : Z) (sts : list status) (ps : list string),
    (Z.to_nat n <= List.length sts)%nat ->
    (forall st, In st (firstn (Z.to_nat n) sts) ->
                (hits (content st) ps <= 1)%nat) ->
    matcher n sts (map PStr ps) =
    Ok (Z.of_nat (erroring_statuses (firstn (Z.to_nat n) sts) ps)).
Proof.
  intros n sts ps H D.
  now rewrite (matcher_strs _ _ _ H), (pair_hits_at_most_one _ _ D).
Qed.

Lemma matcher_counts_statuses_when_disjoint_witness :
  (Z.to_nat 3 <= List.length [erroring; quiet; erroring])%nat /\
  (forall st, In st (firstn (Z.to_nat 3) [erroring; quiet; erroring]) ->
              (hits (content st) ["No alt text!"] <= 1)%nat) /\
  matcher 3 [erroring; quiet; erroring] (map PStr ["No alt text!"]) = Ok 2.
Proof.
  assert (D : forall st,
             In st (firstn (Z.to_nat 3) [erroring; quiet; erroring]) ->
             (hits (content st) ["No alt text!"] <= 1)%nat)
    by (intros st [<-|[<-|[<-|[]]]]; vm_compute; repeat constructor).
  split; [simpl; lia|]. split; [exact D|].
  apply (matcher_counts_statuses_when_disjoint 3 [erroring; quiet; erroring]
           ["No alt text!"]); [simpl; lia | exact D].
Defined.

(** ** Edge behaviour of the matcher *)

(** X6. Fetching fewer statuses than [number_of_statuses] never yields a
    count: the matcher raises, and it raises [IndexError] whenever the
    phrases are strings. *)
Theorem short_fetch_never_counts :
  forall (n : Z) (sts : list status) (errors : list pyval),
    (List.length sts < Z.to_nat n)%nat ->
    (exists e, matcher n sts errors = Raise e /\
               (e = IndexError \/ e = TypeError)) /\
    (forallb is_str errors = true -> matcher n sts errors = Raise IndexError).
Proof.
  intros n sts errors H. rewrite (matcher_short_eq _ _ _ H).
  destruct (forallb is_str errors) eqn:S.
  - rewrite (all_str_map _ S), scan_all_strs. simpl.
    split; [exists IndexError; auto | reflexivity].
  - split; [|discriminate]. destruct sts as [|st sts].
    + exists IndexError; auto.
    + rewrite scan_all_not_str by exact S. exists TypeError; auto.
Qed.

Lemma short_fetch_never_counts_witness :
  (List.length (repeat quiet 19) < Z.to_nat 20)%nat /\
  matcher 20 (repeat quiet 19) [PStr "No alt text!"] = Raise IndexError.
Proof.
  split; [simpl; lia|].
  apply (short_fetch_never_counts 20 (repeat quiet 19) [PStr "No alt text!"]);
    [simpl; lia | reflexivity].
Defined.

(** X7. Statuses after the first [number_of_statuses] are never looked
    at: appending statuses to a long enough fetch changes nothing. *)
Theorem later_statuses_ignored :
  forall (n : Z) (sts more : list status) (errors : list pyval),
    (Z.to_nat n <= List.length sts)%nat ->
    matcher n (sts ++ more) errors = matcher n sts errors.
Proof.
  intros n sts more errors H.
  rewrite !matcher_firstn by (rewrite ?length_app; lia).
  rewrite firstn_app.
  replace (Z.to_nat n - List.length sts)%nat with 0%nat by lia.
  simpl. now rewrite app_nil_r.
Qed.

Lemma later_statuses_ignored_witness :
  (Z.to_nat 1 <= List.length [quiet])%nat /\
  matcher 1 ([quiet] ++ [erroring; erroring]) [PStr "No alt text!"] =
  matcher 1 [quiet] [PStr "No alt text!"].
Proof.
  split; [simpl; lia|].
  apply (later_statuses_ignored 1 [quiet] [erroring; erroring]
           [PStr "No alt text!"]).
  simpl; lia.
Defined.

(** X8. An extracted message that is not a string (a list of strings,
    say) makes the matcher raise [TypeError] as soon as one status is
    scanned, whatever the contents. *)
Theorem non_string_phrase_raises :
  forall (n : Z) (st : status) (sts : list status) (errors : list pyval),
    0 < n ->
    forallb is_str errors = false ->
    matcher n (st :: sts) errors = Raise TypeError.
Proof.
  intros n st sts errors Hn S. unfold matcher, Py.range.
  destruct (Z.to_nat n) as [|m] eqn:E; [lia|].
  simpl. now rewrite count_errors_not_str.
Qed.

Lemma non_string_phrase_raises_witness :
  0 < 20 /\
  forallb is_str [PStr "No alt text!"; PList [PStr "Kein Alt-Text"]] = false /\
  matcher 20 (erroring :: repeat quiet 19)
          [PStr "No alt text!"; PList [PStr "Kein Alt-Text"]] = Raise TypeError.
Proof.
  split; [lia|]. split; [reflexivity|].
  apply (non_string_phrase_raises 20 erroring (repeat quiet 19)
           [PStr "No alt text!"; PList [PStr "Kein Alt-Text"]]);
    [lia | reflexivity].
Defined.

(** X9. With [number_of_statuses] zero or negative [range] is empty:
    the matcher returns 0 whatever was fetched and extracted, even
    nothing at all and even messages that are not strings. *)
Theorem nothing_scanned_counts_zero :
  forall (n : Z) (sts : list status) (errors : list pyval),
    n <= 0 -> matcher n sts errors = Ok 0.
Proof.
  intros n sts errors H. unfold matcher, Py.range.
  replace (Z.to_nat n) with 0%nat by lia. reflexivity.
Qed.

Lemma nothing_scanned_counts_zero_witness :
  -3 <= 0 /\ matcher (-3) [] [PNone] = Ok 0.
Proof.
  split; [lia|]. apply (nothing_scanned_counts_zero (-3) [] [PNone]). lia.
Defined.

Lemma matcher_ok_bounds (n : Z) (sts : list status) (errors : list pyval)
    (c : Z) :
  matcher n sts errors = Ok c ->
  0 <= c <= Z.max 0 n * Z.of_nat (List.length errors).
Proof.
  intros H. pose proof (matcher_ok_length _ _ _ _ H) as L.
  rewrite matcher_firstn in H by exact L.
  destruct (firstn (Z.to_nat n) sts) as [|st fs] eqn:F.
  - simpl in H. injection H as <-. nia.
  - destruct (forallb is_str errors) eqn:S.
    + pose proof (all_str_map _ S) as E.
      rewrite E, scan_all_strs in H. injection H as <-.
      pose proof (pair_hits_le_product (st :: fs) (strs errors)) as B.
      assert (LF : List.length (st :: fs) = Z.to_nat n)
        by (rewrite <- F, length_firstn; lia).
      assert (LE : List.length errors = List.length (strs errors))
        by (rewrite E at 1; apply length_map).
      rewrite LF in B. rewrite LE. nia.
    + rewrite scan_all_not_str in H by exact S. discriminate.
Qed.

(** X10. A count the matcher returns is never negative and never more
    than the number of statuses scanned times the number of phrases. *)
Theorem matcher_count_bounds :
  forall (n : Z) (sts : list status) (errors : list pyval) (c : Z),
    matcher n sts errors = Ok c ->
    0 <= c <= Z.max 0 n * Z.of_nat (List.length errors).
Proof. exact matcher_ok_bounds. Qed.

Lemma matcher_count_bounds_witness :
  matcher 2 [erroring; quiet] [PStr "No alt text"; PStr "No alt text!"] = Ok 2 /\
  0 <= 2 <= Z.max 0 2 *
            Z.of_nat (List.length [PStr "No alt text"; PStr "No alt text!"]).
Proof.
  split; [reflexivity|].
  apply (matcher_count_bounds 2 [erroring; quiet]
           [PStr "No alt text"; PStr "No alt text!"] 2).
  reflexivity.
Defined.

(** X11. An empty message occurs in every content: with the empty
    string as the only phrase every scanned status is counted. *)
Theorem empty_phrase_matches_everything :
  forall (n : Z) (sts : list status),
    (Z.to_nat n <= List.length sts)%nat ->
    matcher n sts [PStr EmptyString] = Ok (Z.of_nat (Z.to_nat n)).
Proof.
  intros n sts H.
  pose proof (matcher_strs n sts [EmptyString] H) as M.
  rewrite pair_hits_empty_phrase, length_firstn, Nat.min_l in M by exact H.
  exact M.
Qed.

Lemma empty_phrase_matches_everything_witness :
  (Z.to_nat 2 <= List.length [quiet; quiet; quiet])%nat /\
  matcher 2 [quiet; quiet; quiet] [PStr EmptyString] = Ok 2.
Proof.
  split; [simpl; lia|].
  apply (empty_phrase_matches_everything 2 [quiet; quiet; quiet]).
  simpl; lia.
Defined.

(** X12. A message that several locales share is counted once per
    locale: with the same phrase [k] times the count is [k] times the
    count with the phrase once. *)
Theorem repeated_phrase_multiplies :
  forall (n : Z) (sts : list status) (p : string) (k : nat),
    (Z.to_nat n <= List.length sts)%nat ->
    exists c,
      matcher n sts [PStr p] = Ok c /\
      matcher n sts (repeat (PStr p) k) = Ok (Z.of_nat k * c).
Proof.
  intros n sts p k H.
  exists (Z.of_nat (pair_hits (firstn (Z.to_nat n) sts) [p])). split.
  - exact (matcher_strs n sts [p] H).
  - rewrite <- map_repeat, (matcher_strs n sts (repeat p k) H), pair_hits_repeat.
    f_equal. lia.
Qed.

Lemma repeated_phrase_multiplies_witness :
  (Z.to_nat 2 <= List.length [erroring; quiet])%nat /\
  exists c,
    matcher 2 [erroring; quiet] [PStr "No alt text!"] = Ok c /\
    matcher 2 [erroring; quiet] (repeat (PStr "No alt text!") 3) =
      Ok (Z.of_nat 3 * c).
Proof.
  split; [simpl; lia|].
  apply (repeated_phrase_multiplies 2 [erroring; quiet] "No alt text!" 3).
  simpl; lia.
Defined.

(** X13. The order of the phrases (the order of the locales in the
    table) does not matter: permuting them gives the same result,
    count or exception. *)
Theorem phrase_order_irrelevant :
  forall (n : Z) (sts : list status) (es fs : list pyval),
    Permutation es fs ->
    matcher n sts es = matcher n sts fs.
Proof.
  intros n sts es fs H.
  destruct (Nat.le_gt_cases (Z.to_nat n) (List.length sts)) as [L|L].
  - rewrite !matcher_firstn by exact L. now apply scan_all_perm_phrases.
  - rewrite !matcher_short_eq by exact L.
    now rewrite (scan_all_perm_phrases _ _ _ _ H).
Qed.

Lemma phrase_order_irrelevant_witness :
  Permutation [PStr "No alt text"; PStr "Kein Alt-Text"]
              [PStr "Kein Alt-Text"; PStr "No alt text"] /\
  matcher 2 [erroring; quiet] [PStr "No alt text"; PStr "Kein Alt-Text"] =
  matcher 2 [erroring; quiet] [PStr "Kein Alt-Text"; PStr "No alt text"].
Proof.
  split; [apply perm_swap|].
  apply (phrase_order_irrelevant 2 [erroring; quiet]); apply perm_swap.
Defined.

(** X14. Counts add up over phrase collections: the count for the
    phrases of two tables together is the sum of the two counts. *)
Theorem count_additive_in_phrases :
  forall (n : Z) (sts : list status) (ps qs : list string),
    (Z.to_nat n <= List.length sts)%nat ->
    exists a b,
      matcher n sts (map PStr ps) = Ok a /\
      matcher n sts (map PStr qs) = Ok b /\
      matcher n sts (map PStr (ps ++ qs)) = Ok (a + b).
Proof.
  intros n sts ps qs H.
  exists (Z.of_nat (pair_hits (firstn (Z.to_nat n) sts) ps)),
         (Z.of_nat (pair_hits (firstn (Z.to_nat n) sts) qs)).
  rewrite !matcher_strs by exact H. rewrite pair_hits_app_phrases.
  repeat split. f_equal. lia.
Qed.

Lemma count_additive_in_phrases_witness :
  (Z.to_nat 2 <= List.length [erroring; quiet])%nat /\
  exists a b,
    matcher 2 [erroring; quiet] (map PStr ["No alt text"]) = Ok a /\
    matcher 2 [erroring; quiet] (map PStr ["No alt text!"]) = Ok b /\
    matcher 2 [erroring; quiet] (map PStr (["No alt text"] ++ ["No alt text!"]))
      = Ok (a + b).
Proof.
  split; [simpl; lia|].
  apply (count_additive_in_phrases 2 [erroring; quiet]
           ["No alt text"] ["No alt text!"]).
  simpl; lia.
Defined.

(** ** Decision and report, end to end *)

Section Report.

Lemma analyse_ok (cfg : config) (sts : list status) (localizations : pyval)
    (text : string) :
  analyse cfg sts localizations = Ok text ->
  exists errors c,
    error_responses localizations = Ok errors /\
    matcher (number_of_statuses cfg) sts errors = Ok c /\
    text = compose_status c (threshold_of_errors cfg) (mods cfg).
Proof.
  unfold analyse. intros H.
  destruct (error_responses localizations) as [errors|e]; [|discriminate].
  simpl in H.
  destruct (matcher (number_of_statuses cfg) sts errors) as [c|e] eqn:M;
    [|discriminate].
  simpl in H. injection H as <-. exists errors, c. now repeat split.
Qed.

Lemma alert_is_not_all_clear (m : string) : alert_sentence ++ m <> all_clear.
Proof. discriminate. Qed.

End Report.

(** X15. The two messages cannot be confused: whatever the mentions
    string, the composed message is "All is fine" exactly when the count
    is below the threshold. *)
Theorem message_tells_outcome :
  forall (error_count threshold : Z) (mods : string),
    compose_status error_count threshold mods = "All is fine" <->
    error_count < threshold.
Proof.
  intros c t m. unfold compose_status.
  destruct (Z.geb_spec c t) as [G|L]; split; intros H;
    try reflexivity; try lia.
  now apply alert_is_not_all_clear in H.
Qed.

Lemma message_tells_outcome_witness :
  3 < 5 /\ compose_status 3 5 "@mod" = "All is fine".
Proof.
  split; [lia|]. apply (proj2 (message_tells_outcome 3 5 "@mod")). lia.
Defined.

(** X16. A run never posts anything else: every [status_post] in the
    trace of a run carries either "All is fine" or the alert sentence
    followed by the mentions, with the spoiler text "testing" exactly
    when the test flag is set. *)
Theorem only_the_two_messages_are_posted :
  forall (cfg : config) (id : Z) (sts : list status) (localizations : pyval)
         (text : string) (spoiler : option string),
    In (StatusPost text spoiler) (fst (run cfg id sts localizations)) ->
    (text = "All is fine" \/ text = alert_sentence ++ mods cfg) /\
    spoiler = (if test cfg then Some "testing" else None).
Proof.
  intros cfg id sts loc text spoiler. unfold run.
  destruct (analyse cfg sts loc) as [t|e] eqn:A; simpl.
  - intros [H|[H|[H|[]]]]; try discriminate.
    destruct (analyse_ok _ _ _ _ A) as (errors & c & _ & _ & ->).
    unfold status_post in H. split.
    + destruct (test cfg); injection H as <- _; unfold compose_status;
        destruct (c >=? threshold_of_errors cfg); auto.
    + destruct (test cfg); now injection H as _ <-.
  - intros [H|[H|[]]]; discriminate.
Qed.

Lemma only_the_two_messages_are_posted_witness :
  In (StatusPost "All is fine" (Some "testing"))
     (fst (run default_config 7 (repeat erroring 3 ++ repeat quiet 17)
               localizations_en)) /\
  ("All is fine" = "All is fine" \/
   "All is fine" = alert_sentence ++ mods default_config) /\
  Some "testing" = (if test default_config then Some "testing" else None).
Proof.
  assert (I : In (StatusPost "All is fine" (Some "testing"))
                 (fst (run default_config 7
                           (repeat erroring 3 ++ repeat quiet 17)
                           localizations_en)))
    by (vm_compute; auto).
  split; [exact I|].
  exact (only_the_two_messages_are_posted default_config 7
           (repeat erroring 3 ++ repeat quiet 17) localizations_en
           "All is fine" (Some "testing") I).
Defined.

(** X17. With a threshold of zero or less every run that gets to the
    decision composes the alert: the count is never negative. *)
Theorem non_positive_threshold_always_alerts :
  forall (cfg : config) (sts : list status) (localizations : pyval)
         (text : string),
    threshold_of_errors cfg <= 0 ->
    analyse cfg sts localizations = Ok text ->
    text = alert_sentence ++ mods cfg.
Proof.
  intros cfg sts loc text T A.
  destruct (analyse_ok _ _ _ _ A) as (errors & c & _ & M & ->).
  pose proof (matcher_ok_bounds _ _ _ _ M) as [B _].
  unfold compose_status.
  destruct (Z.geb_spec c (threshold_of_errors cfg)); [reflexivity | lia].
Qed.

Lemma non_positive_threshold_always_alerts_witness :
  threshold_of_errors
    {| mods := "@mod"; test := false;
       number_of_statuses := 2; threshold_of_errors := 0 |} <= 0 /\
  analyse {| mods := "@mod"; test := false;
             number_of_statuses := 2; threshold_of_errors := 0 |}
          [quiet; quiet] localizations_en = Ok (alert_sentence ++ "@mod") /\
  alert_sentence ++ "@mod" = alert_sentence ++ "@mod".
Proof.
  split; [simpl; lia|]. split; [reflexivity|].
  apply (non_positive_threshold_always_alerts
           {| mods := "@mod"; test := false;
              number_of_statuses := 2; threshold_of_errors := 0 |}
           [quiet; quiet] localizations_en (alert_sentence ++ "@mod"));
    [simpl; lia | reflexivity].
Defined.

(** X18. Counting a status more than once can only raise the count: when
    the number of scanned statuses that contain a message reaches the
    threshold, the alert is composed. *)
Theorem enough_erroring_statuses_alert :
  forall (cfg : config) (sts : list status) (localizations : pyval)
         (ps : list string),
    error_responses localizations = Ok (map PStr ps) ->
    (Z.to_nat (number_of_statuses cfg) <= List.length sts)%nat ->
    threshold_of_errors cfg <=
      Z.of_nat (erroring_statuses
                  (firstn (Z.to_nat (number_of_statuses cfg)) sts) ps) ->
    analyse cfg sts localizations = Ok (alert_sentence ++ mods cfg).
Proof.
  intros cfg sts loc ps E L T. unfold analyse. rewrite E. simpl.
  rewrite (matcher_strs _ _ _ L). simpl. unfold compose_status.
  pose proof (pair_hits_bounds
                (firstn (Z.to_nat (number_of_statuses cfg)) sts) ps) as [B _].
  match goal with
  | |- context [?a >=? ?b] => destruct (Z.geb_spec a b)
  end; [reflexivity | lia].
Qed.

Lemma enough_erroring_statuses_alert_witness :
  error_responses localizations_en = Ok (map PStr ["No alt text!"]) /\
  (Z.to_nat (number_of_statuses default_config) <=
   List.length (repeat erroring 6 ++ repeat quiet 14))%nat /\
  threshold_of_errors default_config <=
    Z.of_nat (erroring_statuses
                (firstn (Z.to_nat (number_of_statuses default_config))
                        (repeat erroring 6 ++ repeat quiet 14))
                ["No alt text!"]) /\
  analyse default_config (repeat erroring 6 ++ repeat quiet 14)
          localizations_en = Ok (alert_sentence ++ mods default_config).
Proof.
  assert (H1 : error_responses localizations_en =
               Ok (map PStr ["No alt text!"])) by reflexivity.
  assert (H2 : (Z.to_nat (number_of_statuses default_config) <=
                List.length (repeat erroring 6 ++ repeat quiet 14))%nat)
    by (vm_compute; repeat constructor).
  assert (H3 : threshold_of_errors default_config <=
               Z.of_nat (erroring_statuses
                           (firstn (Z.to_nat (number_of_statuses default_config))
                                   (repeat erroring 6 ++ repeat quiet 14))
                           ["No alt text!"]))
    by (vm_compute; discriminate).
  split; [exact H1|]. split; [exact H2|]. split; [exact H3|].
  exact (enough_erroring_statuses_alert default_config
           (repeat erroring 6 ++ repeat quiet 14) localizations_en
           ["No alt text!"] H1 H2 H3).
Defined.
